(** * pygameui: the device-event dispatcher of [pygameui/__init__.py]

    A shallow embedding of [run] and [single_loop_run].  The dispatcher is
    effectful Python: it reads and writes module globals ([scene.stack],
    [focus.view], [pitft]), raises exceptions, and calls into the backend
    and into views.  It is embedded in a small monad that threads the
    globals, records every outgoing call in a trace and propagates
    exceptions. *)

From Stdlib Require Import ZArith QArith List String Bool Lia.
Import ListNotations.
Local Open Scope Z_scope.

(** ** Data *)

(** A view is a Python object: it is compared by identity ([!=] on objects
    that define no [__eq__]) and is truthy whenever it is not [None]. *)
Definition view := nat.
Bind Scope nat_scope with view.

Definition point := (Z * Z)%type.

(** The events [pygame.event.get()] delivers, keyed by [e.type], with the
    attributes pygame attaches to each type.  [OTHER] stands for every
    event type the dispatcher has no branch for. *)
Inductive event : Type :=
| QUIT
| MOUSEBUTTONDOWN (button : Z) (pos : point)
| MOUSEBUTTONUP (button : Z) (pos : point)
| MOUSEMOTION (pos : point) (rel : point)
| KEYDOWN (key : Z) (unicode : string)
| KEYUP (key : Z)
| OTHER (type : Z).

(** One event of a batch, together with the answer [pygame.mouse.get_pos()]
    gives while that event is being handled. *)
Record polled : Type := Polled { ev : event; cursor : point }.

(** Calls that leave the dispatcher, in program order.  [logger.debug] is
    left out. *)
Inductive action : Type :=
| ClockTick                                   (* clock.tick(60) *)
| PitftUpdate                                 (* pitft.update() *)
| EventGet                                    (* pygame.event.get() *)
| DelPitft                                    (* del(pitft) *)
| PygameQuit                                  (* pygame.quit() *)
| MouseGetPos                                 (* pygame.mouse.get_pos() *)
| Hit (scn : view) (p : point)                (* scn.hit(p) *)
| FocusSet (v : option view)                  (* focus.set(v) *)
| FromWindow (v : view) (p : point)           (* v.from_window(p) *)
| MouseDown (v : view) (button : Z) (pt : point)
| Blurred (v : view)                          (* v.blurred() *)
| MouseUp (v : view) (button : Z) (pt : point)
| MouseDrag (v : view) (pt : point) (rel : point)
| MouseMotion (scn : view) (p : point)        (* scn.mouse_motion(p) *)
| KeyDown (v : view) (key : Z) (unicode : string)
| KeyUp (v : view) (key : Z)
| Update (scn : view) (seconds : Q)           (* scn.update(dt/1000.0) *)
| Draw (scn : view)                           (* scn.draw() *)
| Blit (scn : view) (dest : point)            (* window_surface.blit(scn.surface, dest) *)
| DisplayFlip.                                (* pygame.display.flip() *)

Inductive exn : Type :=
| AssertionError
| NameError
| AttributeError
| KeyboardInterrupt
| SystemExit.

(** The module globals the dispatcher touches. *)
Record globals : Type := Globals {
  scene_stack : list view;         (* scene.stack *)
  focus_view : option view;        (* focus.view *)
  pitft_bound : bool               (* is the global name pitft still bound *)
}.

Definition with_focus (v : option view) (g : globals) : globals :=
  Globals (scene_stack g) v (pitft_bound g).

Definition without_pitft (g : globals) : globals :=
  Globals (scene_stack g) (focus_view g) false.

(** ** The effect monad *)

Inductive res (A : Type) : Type :=
| Val (a : A)
| Exc (e : exn).
Arguments Val {A} a.
Arguments Exc {A} e.

Definition M (A : Type) : Type := globals -> res A * globals * list action.

Definition ret {A} (a : A) : M A := fun g => (Val a, g, []).

Definition bind {A B} (m : M A) (k : A -> M B) : M B :=
  fun g =>
    match m g with
    | (Val a, g1, t1) =>
        match k a g1 with
        | (r, g2, t2) => (r, g2, t1 ++ t2)
        end
    | (Exc e, g1, t1) => (Exc e, g1, t1)
    end.

Notation "x <- m ;; k" := (bind m (fun x => k))
  (at level 61, m at next level, right associativity).
Notation "m ;; k" := (bind m (fun _ => k))
  (at level 61, right associativity).

Definition raise {A} (e : exn) : M A := fun g => (Exc e, g, []).

(** [try: m except e: handler] *)
Definition exn_eqb (a b : exn) : bool :=
  match a, b with
  | AssertionError, AssertionError
  | NameError, NameError
  | AttributeError, AttributeError
  | KeyboardInterrupt, KeyboardInterrupt
  | SystemExit, SystemExit => true
  | _, _ => false
  end.

Definition try_except {A} (m : M A) (e : exn) (handler : M A) : M A :=
  fun g =>
    match m g with
    | (Exc e', g1, t1) =>
        if exn_eqb e' e then
          match handler g1 with
          | (r, g2, t2) => (r, g2, t1 ++ t2)
          end
        else (Exc e', g1, t1)
    | r => r
    end.

Definition call (a : action) : M unit := fun g => (Val tt, g, [a]).

Definition gets {A} (f : globals -> A) : M A := fun g => (Val (f g), g, []).

Definition value {A} (r : res A * globals * list action) : res A := fst (fst r).
Definition final {A} (r : res A * globals * list action) : globals := snd (fst r).
Definition trace {A} (r : res A * globals * list action) : list action := snd r.

(** ** Collaborators outside this file *)

(** Modelled from the spec: the focus manager's [set(view | null)] of the
    module [focus], which is not part of this file; afterwards [focus.view]
    is the view passed in. *)
Definition focus_set (v : option view) : M unit :=
  fun g => (Val tt, with_focus v g, [FocusSet v]).

(** Modelled from the spec: [scene.current], of the module [scene]; the
    scene stack is an ordered sequence of scenes whose last element is the
    current one.  With an empty stack [scene.current] is [None], and the
    attribute access on it raises. *)
Definition scene_current : M view :=
  fun g =>
    match rev (scene_stack g) with
    | top :: _ => (Val top, g, [])
    | [] => (Exc AttributeError, g, [])
    end.

(** [pitft.update()]: a deleted global raises [NameError]. *)
Definition pitft_update : M unit :=
  fun g =>
    if pitft_bound g then (Val tt, g, [PitftUpdate])
    else (Exc NameError, g, []).

(** [del(pitft)] *)
Definition del_pitft : M unit :=
  fun g =>
    if pitft_bound g then (Val tt, without_pitft g, [DelPitft])
    else (Exc NameError, g, []).

(** The class [View] lives in [view.py], which is not part of this file;
    its interface is taken as it answers.  [hit] and [from_window] are
    queries, [draggable] is an attribute, and [isinstance_Scene v] is
    [isinstance(v, scene.Scene)].  The handlers of a view ([mouse_down],
    [blurred], ...) are opaque: they show up in the trace and are taken not
    to touch the globals of the dispatcher. *)
Class Views : Type := {
  hit : view -> point -> option view;
  from_window : view -> point -> point;
  draggable : view -> bool;
  isinstance_Scene : view -> bool
}.

Section Dispatcher.

Context {V : Views}.

Definition view_hit (scn : view) (p : point) : M (option view) :=
  call (Hit scn p) ;; ret (hit scn p).

Definition view_from_window (v : view) (p : point) : M point :=
  call (FromWindow v p) ;; ret (from_window v p).

(** Python [!=] on views. *)
Definition view_neb (a b : view) : bool := negb (Nat.eqb a b).

(** *** The body of the [for] loop after the [QUIT] test

    [mousepoint] is the queried cursor position and [down_in_view] the
    local variable; the result is its value after the branch. *)
Definition dispatch (e : event) (mousepoint : point)
    (down_in_view : option view) : M (option view) :=
  match e with
  | MOUSEBUTTONDOWN button _ =>
      cur <- scene_current ;;
      hit_view <- view_hit cur mousepoint ;;
      match hit_view with
      | Some hv =>
          if negb (isinstance_Scene hv) then
            focus_set (Some hv) ;;
            pt <- view_from_window hv mousepoint ;;
            call (MouseDown hv button pt) ;;
            ret (Some hv)
          else
            focus_set None ;; ret down_in_view
      | None => focus_set None ;; ret down_in_view
      end
  | MOUSEBUTTONUP button _ =>
      cur <- scene_current ;;
      hit_view <- view_hit cur mousepoint ;;
      match hit_view with
      | Some hv =>
          match down_in_view with
          | Some d =>
              if view_neb hv d then
                call (Blurred d) ;; focus_set None
              else ret tt
          | None => ret tt
          end ;;
          pt <- view_from_window hv mousepoint ;;
          call (MouseUp hv button pt)
      | None => ret tt
      end ;;
      ret None
  | MOUSEMOTION _ rel =>
      match down_in_view with
      | Some d =>
          if draggable d then
            pt <- view_from_window d mousepoint ;;
            call (MouseDrag d pt rel)
          else
            cur <- scene_current ;; call (MouseMotion cur mousepoint)
      | None => cur <- scene_current ;; call (MouseMotion cur mousepoint)
      end ;;
      ret down_in_view
  | KEYDOWN key unicode =>
      fv <- gets focus_view ;;
      match fv with
      | Some v => call (KeyDown v key unicode)
      | None => cur <- scene_current ;; call (KeyDown cur key unicode)
      end ;;
      ret down_in_view
  | KEYUP key =>
      fv <- gets focus_view ;;
      match fv with
      | Some v => call (KeyUp v key)
      | None => cur <- scene_current ;; call (KeyUp cur key)
      end ;;
      ret down_in_view
  | QUIT | OTHER _ => ret down_in_view
  end.

(** How the [for] loop ends: by [return True], or by running out of
    events, with the final value of [down_in_view]. *)
Inductive loop_end : Type :=
| ReturnTrue
| Exhausted (down_in_view : option view).

(** [for e in pygame.event.get(): ...] *)
Fixpoint for_events (batch : list polled) (down_in_view : option view)
    : M loop_end :=
  match batch with
  | [] => ret (Exhausted down_in_view)
  | p :: rest =>
      match ev p with
      | QUIT => del_pitft ;; call PygameQuit ;; ret ReturnTrue
      | e =>
          call MouseGetPos ;;
          d <- dispatch e (cursor p) down_in_view ;;
          for_events rest d
      end
  end.

(** [update], [draw], [blit], [flip]: the tail of a tick. *)
Definition render (dt : Z) : M unit :=
  cur <- scene_current ;; call (Update cur (dt # 1000)) ;;
  cur <- scene_current ;; call (Draw cur) ;;
  cur <- scene_current ;; call (Blit cur (0, 0)) ;;
  call DisplayFlip.

(** [single_loop_run(dt)]; [batch] is what [pygame.event.get()] returns.
    The result is [true] for [return True] and [false] for falling off
    the end (Python's [None]). *)
Definition single_loop_run (dt : Z) (batch : list polled) : M bool :=
  n <- gets (fun g => List.length (scene_stack g)) ;;
  if negb (0 <? n)%nat then raise AssertionError
  else
    let down_in_view : option view := None in
    pitft_update ;;
    call EventGet ;;
    r <- for_events batch down_in_view ;;
    match r with
    | ReturnTrue => ret true
    | Exhausted _ => render dt ;; ret false
    end.

(** The value [down_in_view] has when the [for] loop of a tick is left. *)
Definition down_in_view_at_end (batch : list polled) (g : globals)
    : option loop_end :=
  match for_events batch None g with
  | (Val r, _, _) => Some r
  | _ => None
  end.

(** *** [run]

    One turn of [while True] consumes one input: either [clock.tick]
    returns [dt] and, if the tick body is entered, [pygame.event.get()]
    returns [batch]; or the user interrupts the process while the loop
    waits in [clock.tick]. *)
Inductive loop_input : Type :=
| Tick (dt : Z) (batch : list polled)
| Interrupt.

(** [while True: ...], over a finite prefix of inputs.  A value is the
    content of [elapsed] when the inputs run out with the loop still going. *)
Fixpoint while_true (inputs : list loop_input) (elapsed : Z) : M Z :=
  match inputs with
  | [] => ret elapsed
  | Interrupt :: _ => call ClockTick ;; raise KeyboardInterrupt
  | Tick dt batch :: rest =>
      call ClockTick ;;
      let elapsed := elapsed + dt in
      if 500 <? elapsed then
        quit <- single_loop_run dt batch ;;
        if (quit : bool) then raise SystemExit
        else while_true rest elapsed
      else while_true rest elapsed
  end.

Definition run (inputs : list loop_input) : M Z :=
  try_except (while_true inputs 0) KeyboardInterrupt
    (del_pitft ;; call PygameQuit ;; raise KeyboardInterrupt).

End Dispatcher.

(** ** Vocabulary of the statements *)

(** The calls of a tick's tail. *)
Definition is_render (a : action) : bool :=
  match a with
  | Update _ _ | Draw _ | Blit _ _ | DisplayFlip => true
  | _ => false
  end.

Definition is_teardown (a : action) : bool :=
  match a with
  | DelPitft | PygameQuit => true
  | _ => false
  end.

(** The calls a branch of the [for] loop can make: none of the tick's
    tail, of the teardown, or the cursor query. *)
Definition quiet (a : action) : bool :=
  negb (is_render a) && negb (is_teardown a) &&
  match a with MouseGetPos => false | _ => true end.

Definition is_quit (p : polled) : bool :=
  match ev p with QUIT => true | _ => false end.

(** How often a trace asks the backend for the pointer position. *)
Definition is_getpos (a : action) : bool :=
  match a with
  | MouseGetPos => true
  | _ => false
  end.

Definition cursor_queries (tr : list action) : nat :=
  List.length (filter is_getpos tr).

(** The event [e] with the pointer position it carries replaced by [p]. *)
Definition retag (p : point) (e : event) : event :=
  match e with
  | MOUSEBUTTONDOWN button _ => MOUSEBUTTONDOWN button p
  | MOUSEBUTTONUP button _ => MOUSEBUTTONUP button p
  | MOUSEMOTION _ rel => MOUSEMOTION p rel
  | other => other
  end.

(** Two batches that differ at most in the positions tagged on their
    events: same kinds, buttons, deltas and keys, and the same answers of
    the cursor query. *)
Definition same_but_pos (p q : polled) : Prop :=
  retag (0, 0) (ev p) = retag (0, 0) (ev q) /\ cursor p = cursor q.

Definition differ_only_in_pos (b1 b2 : list polled) : Prop :=
  Forall2 same_but_pos b1 b2.

(** The time the clock reports for one turn of the loop, and the time
    accumulated over a sequence of turns. *)
Definition dt_of (i : loop_input) : Z :=
  match i with
  | Tick dt _ => dt
  | Interrupt => 0
  end.

Definition total_dt (inputs : list loop_input) : Z :=
  fold_right (fun i acc => dt_of i + acc) 0 inputs.

Definition is_tick (i : loop_input) : bool :=
  match i with
  | Tick _ _ => true
  | Interrupt => false
  end.

(** [clock.tick] reports elapsed milliseconds, which are never negative. *)
Definition clock_ok (inputs : list loop_input) : Prop :=
  Forall (fun i => 0 <= dt_of i) inputs.

(** The reading of the release scenario that blurs the pressed view and
    clears focus wherever the pointer is released outside it, with or
    without a view under the release point. *)
Definition release_outside_always_blurs (V : Views) : Prop :=
  forall (g : globals) (stk : list view) (cur B : view)
         (b1 b2 : Z) (pos1 pos2 p1 p2 : point),
    scene_stack g = stk ++ [cur] ->
    hit cur p1 = Some B ->
    isinstance_Scene B = false ->
    hit cur p2 <> Some B ->
    let r := for_events [Polled (MOUSEBUTTONDOWN b1 pos1) p1;
                         Polled (MOUSEBUTTONUP b2 pos2) p2] None g in
    In (Blurred B) (trace r) /\ focus_view (final r) = None.

(** *** A small scene for concrete runs

    Scene [0] fills the 320x240 window.  It holds the draggable button [1]
    with frame (0,0)-(50,50) and the fixed label [2] with frame
    (100,100)-(150,150). *)
Definition inside (x0 y0 x1 y1 : Z) (p : point) : bool :=
  (x0 <=? fst p) && (fst p <? x1) && (y0 <=? snd p) && (snd p <? y1).

Definition demo_hit (scn : view) (p : point) : option view :=
  match scn with
  | O =>
      if inside 0 0 50 50 p then Some 1%nat
      else if inside 100 100 150 150 p then Some 2%nat
      else if inside 0 0 320 240 p then Some 0%nat
      else None
  | _ => None
  end.

Definition demo_from_window (v : view) (p : point) : point :=
  match v with
  | 2%nat => (fst p - 100, snd p - 100)
  | _ => p
  end.

Definition demo_views : Views := {|
  hit := demo_hit;
  from_window := demo_from_window;
  draggable := Nat.eqb 1;
  isinstance_Scene := Nat.eqb 0
|}.

Definition demo_globals : globals := Globals [0%nat] None true.

(** *** Further vocabulary: kinds of events and of calls *)

Definition is_other (p : polled) : bool :=
  match ev p with
  | OTHER _ => true
  | _ => false
  end.

Definition is_press (p : polled) : bool :=
  match ev p with
  | MOUSEBUTTONDOWN _ _ => true
  | _ => false
  end.

Definition is_button (p : polled) : bool :=
  match ev p with
  | MOUSEBUTTONDOWN _ _ | MOUSEBUTTONUP _ _ => true
  | _ => false
  end.

Definition is_drag_or_blur (a : action) : bool :=
  match a with
  | MouseDrag _ _ _ | Blurred _ => true
  | _ => false
  end.

(** A trace with the cursor queries taken out. *)
Definition drop_queries (tr : list action) : list action :=
  filter (fun a => negb (is_getpos a)) tr.






(** The view a key event goes to: [focus.view] if set, else the current
    scene [cur]. *)
Definition key_target (g : globals) (cur : view) : view :=
  match focus_view g with
  | Some v => v
  | None => cur
  end.

(** ** Basic facts about the model *)

Ltac run_monad :=
  unfold bind, ret, call, gets, raise, view_hit, view_from_window, focus_set;
  cbn [fst snd app].

Section Facts.

Context {V : Views}.

Lemma scene_current_top (g : globals) (stk : list view) (cur : view) :
  scene_stack g = stk ++ [cur] -> scene_current g = (Val cur, g, []).
Proof.
  intros Hstk. unfold scene_current.
  rewrite Hstk, rev_app_distr. reflexivity.
Qed.

Lemma view_neb_true_iff (a b : view) : view_neb a b = true <-> a <> b.
Proof.
  unfold view_neb. rewrite negb_true_iff. apply Nat.eqb_neq.
Qed.

Lemma view_neb_refl (a : view) : view_neb a a = false.
Proof. unfold view_neb. now rewrite Nat.eqb_refl. Qed.

Lemma dispatch_total (e : event) (mp : point) (d : option view)
    (g : globals) (stk : list view) (cur : view) :
  scene_stack g = stk ++ [cur] ->
  exists d' g' tr,
    dispatch e mp d g = (Val d', g', tr) /\
    scene_stack g' = scene_stack g /\
    pitft_bound g' = pitft_bound g /\
    forallb quiet tr = true.
Proof.
  intros Hstk. pose proof (scene_current_top g stk cur Hstk) as Hcur.
  destruct e; unfold dispatch.
  - do 3 eexists. run_monad. repeat split; reflexivity.
  - run_monad. rewrite Hcur. cbn.
    destruct (hit cur mp) as [hv|]; [destruct (isinstance_Scene hv)|];
      cbn; do 3 eexists; repeat split; reflexivity.
  - run_monad. rewrite Hcur. cbn.
    destruct (hit cur mp) as [hv|]; [destruct d as [d0|]; [destruct (view_neb hv d0)|]|];
      cbn; do 3 eexists; repeat split; reflexivity.
  - destruct d as [d0|]; [destruct (draggable d0)|]; run_monad;
      try rewrite Hcur; cbn; do 3 eexists; repeat split; reflexivity.
  - run_monad. destruct (focus_view g); try rewrite Hcur; cbn;
      do 3 eexists; repeat split; reflexivity.
  - run_monad. destruct (focus_view g); try rewrite Hcur; cbn;
      do 3 eexists; repeat split; reflexivity.
  - do 3 eexists. run_monad. repeat split; reflexivity.
Qed.

Lemma for_events_step (p : polled) (rest : list polled) (d : option view) :
  is_quit p = false ->
  for_events (p :: rest) d =
  (call MouseGetPos ;; d' <- dispatch (ev p) (cursor p) d ;; for_events rest d').
Proof.
  unfold is_quit. intros Hq. cbn [for_events].
  destruct (ev p); try reflexivity. discriminate.
Qed.

Lemma for_events_no_quit (batch : list polled) :
  forall (d : option view) (g : globals) (stk : list view) (cur : view),
  scene_stack g = stk ++ [cur] ->
  existsb is_quit batch = false ->
  exists d' g' tr,
    for_events batch d g = (Val (Exhausted d'), g', tr) /\
    scene_stack g' = scene_stack g /\
    pitft_bound g' = pitft_bound g /\
    forallb (fun a => negb (is_render a) && negb (is_teardown a)) tr = true.
Proof.
  induction batch as [|p rest IH]; intros d g stk cur Hstk Hnq.
  - exists d, g, []. repeat split; reflexivity.
  - cbn [existsb] in Hnq. apply orb_false_iff in Hnq as [Hp Hrest].
    rewrite for_events_step by exact Hp.
    destruct (dispatch_total (ev p) (cursor p) d g stk cur Hstk)
      as (d1 & g1 & t1 & Hd & Hs1 & Hb1 & Hq1).
    assert (Hstk1 : scene_stack g1 = stk ++ [cur]) by congruence.
    destruct (IH d1 g1 stk cur Hstk1 Hrest)
      as (d2 & g2 & t2 & Hf & Hs2 & Hb2 & Hq2).
    exists d2, g2, (MouseGetPos :: t1 ++ t2).
    unfold bind, call. rewrite Hd, Hf. cbn.
    repeat split; try congruence.
    rewrite forallb_app, Hq2, andb_true_r.
    rewrite forallb_forall in Hq1 |- *. intros a Ha.
    specialize (Hq1 a Ha). unfold quiet in Hq1.
    apply andb_true_iff in Hq1 as [Hq1 _]. exact Hq1.
Qed.

End Facts.

(** ** The branches of the dispatcher *)

Section Branches.

Context {V : Views}.

(** C4.  Pointer-down: the current scene is hit-tested at the queried
    pointer location.  A hit target other than the scene itself gets the
    focus, becomes [down_in_view] and receives [mouse_down] with the button
    and the point in its local space; with no hit, or with the scene itself
    hit, focus is cleared and no [mouse_down] is delivered.  Scenes are
    top-level views, so the scene itself is the one [Scene] instance its hit
    test can answer. *)
Theorem pointer_down_dispatch (g : globals) (stk : list view) (cur : view)
    (button : Z) (pos mousepoint : point) (down : option view) :
  scene_stack g = stk ++ [cur] ->
  (forall hv, hit cur mousepoint = Some hv ->
     (isinstance_Scene hv = true <-> hv = cur)) ->
  let r := dispatch (MOUSEBUTTONDOWN button pos) mousepoint down g in
  (forall hv, hit cur mousepoint = Some hv -> hv <> cur ->
     r = (Val (Some hv), with_focus (Some hv) g,
          [Hit cur mousepoint; FocusSet (Some hv); FromWindow hv mousepoint;
           MouseDown hv button (from_window hv mousepoint)])) /\
  (hit cur mousepoint = None \/ hit cur mousepoint = Some cur ->
     r = (Val down, with_focus None g, [Hit cur mousepoint; FocusSet None])).
Proof.
  intros Hstack Htop r. subst r. unfold dispatch. run_monad.
  rewrite (scene_current_top g stk cur Hstack). cbn.
  split.
  - intros hv Hhit Hne. rewrite Hhit.
    case_eq (isinstance_Scene hv); intros Hcls.
    + exfalso. apply Hne. now apply (Htop hv Hhit).
    + reflexivity.
  - intros [Hnone | Hself].
    + rewrite Hnone. reflexivity.
    + rewrite Hself.
      assert (Hcls : isinstance_Scene cur = true) by now apply (Htop cur Hself).
      rewrite Hcls. reflexivity.
Qed.

(** C3.  Pointer-up: the current scene is hit-tested; when a view is hit
    and [down_in_view] is set and is another view, [down_in_view] is
    blurred and focus is cleared, and the view under the cursor still
    receives [mouse_up] with the point in its local space; [down_in_view]
    is [None] afterwards whether or not a view was hit. *)
Theorem pointer_up_dispatch (g : globals) (stk : list view) (cur : view)
    (button : Z) (pos mousepoint : point) (down : option view) :
  scene_stack g = stk ++ [cur] ->
  let r := dispatch (MOUSEBUTTONUP button pos) mousepoint down g in
  value r = Val None /\
  (forall hv d, hit cur mousepoint = Some hv -> down = Some d -> d <> hv ->
     r = (Val None, with_focus None g,
          [Hit cur mousepoint; Blurred d; FocusSet None;
           FromWindow hv mousepoint;
           MouseUp hv button (from_window hv mousepoint)])) /\
  (forall hv, hit cur mousepoint = Some hv -> down = None \/ down = Some hv ->
     r = (Val None, g,
          [Hit cur mousepoint; FromWindow hv mousepoint;
           MouseUp hv button (from_window hv mousepoint)])) /\
  (hit cur mousepoint = None -> r = (Val None, g, [Hit cur mousepoint])).
Proof.
  intros Hstack r. subst r. unfold dispatch. run_monad.
  rewrite (scene_current_top g stk cur Hstack). cbn.
  repeat split.
  - destruct (hit cur mousepoint) as [hv|]; [|reflexivity].
    destruct down as [d|]; [destruct (view_neb hv d)|]; reflexivity.
  - intros hv d Hhit -> Hne. rewrite Hhit.
    assert (Hneb : view_neb hv d = true)
      by (apply view_neb_true_iff; congruence).
    rewrite Hneb. reflexivity.
  - intros hv Hhit [-> | ->]; rewrite Hhit; [reflexivity|].
    rewrite view_neb_refl. reflexivity.
  - intros ->. reflexivity.
Qed.

(** C9.  Pointer-move: with [down_in_view] set and draggable, that view
    receives [mouse_drag] with the point in its local space and the event's
    raw relative delta; otherwise the raw window-space point goes to the
    motion handler of the current scene. *)
Theorem pointer_move_dispatch (g : globals) (stk : list view) (cur : view)
    (pos rel mousepoint : point) (down : option view) :
  scene_stack g = stk ++ [cur] ->
  let r := dispatch (MOUSEMOTION pos rel) mousepoint down g in
  (forall d, down = Some d -> draggable d = true ->
     r = (Val down, g,
          [FromWindow d mousepoint;
           MouseDrag d (from_window d mousepoint) rel])) /\
  (down = None \/ (exists d, down = Some d /\ draggable d = false) ->
     r = (Val down, g, [MouseMotion cur mousepoint])).
Proof.
  intros Hstack r. subst r. unfold dispatch. split.
  - intros d -> Hdrag. rewrite Hdrag. reflexivity.
  - intros [-> | (d & -> & Hdrag)]; [|rewrite Hdrag]; run_monad;
      rewrite (scene_current_top g stk cur Hstack); reflexivity.
Qed.

End Branches.

(** ** The [for] loop over a batch *)

Section Batches.

Context {V : Views}.

Lemma dispatch_retag (p : point) (e : event) (mp : point) (d : option view) :
  dispatch (retag p e) mp d = dispatch e mp d.
Proof. destruct e; reflexivity. Qed.

Lemma same_but_pos_quit (p q : polled) :
  same_but_pos p q -> is_quit p = is_quit q.
Proof.
  unfold same_but_pos, is_quit. intros [Hev _].
  destruct (ev p), (ev q); cbn in Hev; congruence.
Qed.

Lemma same_but_pos_dispatch (p q : polled) (d : option view) :
  same_but_pos p q ->
  dispatch (ev p) (cursor p) d = dispatch (ev q) (cursor q) d.
Proof.
  intros [Hev Hcur].
  rewrite <- (dispatch_retag (0, 0) (ev p)), <- (dispatch_retag (0, 0) (ev q)).
  now rewrite Hev, Hcur.
Qed.

Lemma for_events_quit_head (p : polled) (rest : list polled)
    (d : option view) :
  is_quit p = true ->
  for_events (p :: rest) d = (del_pitft ;; call PygameQuit ;; ret ReturnTrue).
Proof.
  unfold is_quit. intros Hq. cbn [for_events].
  destruct (ev p); try discriminate. reflexivity.
Qed.

Lemma for_events_differ_only_in_pos (b1 b2 : list polled) :
  differ_only_in_pos b1 b2 ->
  forall d g, for_events b1 d g = for_events b2 d g.
Proof.
  induction 1 as [|p q b1 b2 Hpq _ IH]; intros d g; [reflexivity|].
  pose proof (same_but_pos_quit p q Hpq) as Hq.
  case_eq (is_quit p); intros Hp; rewrite Hp in Hq; symmetry in Hq.
  - now rewrite !for_events_quit_head.
  - rewrite !for_events_step by assumption.
    rewrite (same_but_pos_dispatch p q d Hpq).
    unfold bind, call.
    destruct (dispatch (ev q) (cursor q) d g) as [[[d1|e] g1] t1];
      [|reflexivity].
    now rewrite IH.
Qed.

Lemma quiet_no_cursor_query (tr : list action) :
  forallb quiet tr = true -> cursor_queries tr = 0%nat.
Proof.
  unfold cursor_queries. induction tr as [|a tr IH]; [reflexivity|].
  cbn [forallb filter]. intros Hq. apply andb_true_iff in Hq as [Ha Htr].
  unfold quiet in Ha. destruct a; cbn in Ha |- *; try discriminate;
    now apply IH.
Qed.

Lemma cursor_queries_app (t1 t2 : list action) :
  cursor_queries (t1 ++ t2) = (cursor_queries t1 + cursor_queries t2)%nat.
Proof.
  unfold cursor_queries. now rewrite filter_app, length_app.
Qed.

Lemma for_events_cursor_queries (batch : list polled) :
  forall (d : option view) (g : globals) (stk : list view) (cur : view),
  scene_stack g = stk ++ [cur] ->
  existsb is_quit batch = false ->
  cursor_queries (trace (for_events batch d g)) = List.length batch.
Proof.
  induction batch as [|p rest IH]; intros d g stk cur Hstk Hnq;
    [reflexivity|].
  cbn [existsb] in Hnq. apply orb_false_iff in Hnq as [Hp Hrest].
  rewrite for_events_step by exact Hp.
  destruct (dispatch_total (ev p) (cursor p) d g stk cur Hstk)
    as (d1 & g1 & t1 & Hd & Hs1 & _ & Hq1).
  assert (Hstk1 : scene_stack g1 = stk ++ [cur]) by congruence.
  specialize (IH d1 g1 stk cur Hstk1 Hrest).
  unfold bind, call. rewrite Hd.
  destruct (for_events rest d1 g1) as [[r g2] t2]. unfold trace in *.
  cbn [snd app] in *.
  change (MouseGetPos :: t1 ++ t2) with ([MouseGetPos] ++ t1 ++ t2).
  rewrite !cursor_queries_app, IH, (quiet_no_cursor_query t1 Hq1).
  reflexivity.
Qed.

Lemma for_events_quit (batch : list polled) :
  forall (d : option view) (g : globals) (stk : list view) (cur : view),
  scene_stack g = stk ++ [cur] ->
  pitft_bound g = true ->
  existsb is_quit batch = true ->
  exists pre q post d1 g1 tr,
    batch = pre ++ q :: post /\
    is_quit q = true /\
    for_events pre d g = (Val (Exhausted d1), g1, tr) /\
    scene_stack g1 = scene_stack g /\
    forallb (fun a => negb (is_render a) && negb (is_teardown a)) tr = true /\
    for_events batch d g =
      (Val ReturnTrue, without_pitft g1, tr ++ [DelPitft; PygameQuit]).
Proof.
  induction batch as [|p rest IH]; intros d g stk cur Hstk Hb Hq;
    [discriminate|].
  case_eq (is_quit p); intros Hp.
  - exists [], p, rest, d, g, []. repeat split; try assumption; try reflexivity.
    rewrite for_events_quit_head by assumption.
    unfold bind, del_pitft, call, ret. rewrite Hb. reflexivity.
  - cbn [existsb] in Hq. rewrite Hp in Hq. cbn in Hq.
    destruct (dispatch_total (ev p) (cursor p) d g stk cur Hstk)
      as (d1 & g1 & t1 & Hd & Hs1 & Hb1 & Hq1).
    assert (Hstk1 : scene_stack g1 = stk ++ [cur]) by congruence.
    assert (Hbound1 : pitft_bound g1 = true) by congruence.
    destruct (IH d1 g1 stk cur Hstk1 Hbound1 Hq)
      as (pre & q & post & d2 & g2 & t2 & -> & Hqq & Hpre & Hs2 & Hfree & Hall).
    exists (p :: pre), q, post, d2, g2, (MouseGetPos :: t1 ++ t2).
    split; [reflexivity|]. split; [assumption|].
    assert (Hfree1 : forallb (fun a => negb (is_render a) && negb (is_teardown a)) t1 = true).
    { rewrite forallb_forall in Hq1 |- *. intros a Ha.
      specialize (Hq1 a Ha). unfold quiet in Hq1.
      now apply andb_true_iff in Hq1 as [Hq1 _]. }
    repeat split.
    + rewrite for_events_step by assumption.
      unfold bind, call. rewrite Hd, Hpre. reflexivity.
    + congruence.
    + cbn [forallb]. rewrite forallb_app, Hfree1, Hfree. reflexivity.
    + change ((p :: pre) ++ q :: post) with (p :: (pre ++ q :: post)).
      rewrite for_events_step by assumption.
      unfold bind, call. rewrite Hd, Hall. cbn.
      now rewrite <- app_assoc.
Qed.

End Batches.

(** ** One tick *)

Section Ticks.

Context {V : Views}.

Lemma stack_nonempty_test (g : globals) (stk : list view) (cur : view) :
  scene_stack g = stk ++ [cur] ->
  negb (0 <? List.length (scene_stack g))%nat = false.
Proof. intros ->. destruct stk; reflexivity. Qed.

Lemma render_top (dt : Z) (g : globals) (stk : list view) (cur : view) :
  scene_stack g = stk ++ [cur] ->
  render dt g =
  (Val tt, g, [Update cur (dt # 1000); Draw cur; Blit cur (0, 0); DisplayFlip]).
Proof.
  intros Hstk. unfold render. run_monad.
  repeat (rewrite (scene_current_top g stk cur Hstk); cbn).
  reflexivity.
Qed.

Lemma tick_without_quit (dt : Z) (batch : list polled) (g : globals)
    (stk : list view) (cur : view) :
  scene_stack g = stk ++ [cur] ->
  pitft_bound g = true ->
  existsb is_quit batch = false ->
  exists d g' tr,
    for_events batch None g = (Val (Exhausted d), g', tr) /\
    scene_stack g' = scene_stack g /\
    pitft_bound g' = pitft_bound g /\
    forallb (fun a => negb (is_render a) && negb (is_teardown a)) tr = true /\
    single_loop_run dt batch g =
      (Val false, g',
       PitftUpdate :: EventGet :: tr ++
       [Update cur (dt # 1000); Draw cur; Blit cur (0, 0); DisplayFlip]).
Proof.
  intros Hstk Hbound Hnq.
  destruct (for_events_no_quit batch None g stk cur Hstk Hnq)
    as (d & g' & tr & Hfor & Hs & Hb & Hfree).
  exists d, g', tr. repeat split; try assumption.
  unfold single_loop_run, bind, gets, pitft_update, call.
  rewrite (stack_nonempty_test g stk cur Hstk), Hbound, Hfor.
  assert (Hstk' : scene_stack g' = stk ++ [cur]) by congruence.
  rewrite (render_top dt g' stk cur Hstk'). reflexivity.
Qed.

Lemma tick_with_quit (dt : Z) (batch : list polled) (g : globals)
    (stk : list view) (cur : view) :
  scene_stack g = stk ++ [cur] ->
  pitft_bound g = true ->
  existsb is_quit batch = true ->
  exists g1 tr,
    scene_stack g1 = scene_stack g /\
    forallb (fun a => negb (is_render a) && negb (is_teardown a)) tr = true /\
    single_loop_run dt batch g =
      (Val true, without_pitft g1,
       PitftUpdate :: EventGet :: tr ++ [DelPitft; PygameQuit]).
Proof.
  intros Hstk Hbound Hq.
  destruct (for_events_quit batch None g stk cur Hstk Hbound Hq)
    as (pre & q & post & d1 & g1 & tr & _ & _ & Hpre & Hs & Hfree & Hall).
  exists g1, tr. repeat split; try assumption.
  unfold single_loop_run, bind, gets, pitft_update, call.
  rewrite (stack_nonempty_test g stk cur Hstk), Hbound, Hall.
  unfold ret. cbn. now rewrite app_nil_r.
Qed.

(** C6.  The order within a tick: the whole event batch is processed
    first, then [update(dt/1000.0)], [draw()], the blit at (0,0) and the
    flip, in that order and each exactly once; no event branch makes any of
    these four calls.  A tick that a quit event cuts short makes none of
    them. *)
Theorem tick_order (dt : Z) (batch : list polled) (g : globals)
    (stk : list view) (cur : view) :
  scene_stack g = stk ++ [cur] ->
  pitft_bound g = true ->
  exists g' tr,
    forallb (fun a => negb (is_render a)) tr = true /\
    ((existsb is_quit batch = false /\
      (exists d, for_events batch None g = (Val (Exhausted d), g', tr)) /\
      single_loop_run dt batch g =
        (Val false, g',
         [PitftUpdate; EventGet] ++ tr ++
         [Update cur (dt # 1000); Draw cur; Blit cur (0, 0); DisplayFlip]))
     \/
     (existsb is_quit batch = true /\
      single_loop_run dt batch g = (Val true, g', [PitftUpdate; EventGet] ++ tr))).
Proof.
  intros Hstk Hbound.
  case_eq (existsb is_quit batch); intros Hq.
  - destruct (tick_with_quit dt batch g stk cur Hstk Hbound Hq)
      as (g1 & tr & _ & Hfree & Hrun).
    exists (without_pitft g1), (tr ++ [DelPitft; PygameQuit]). split.
    + rewrite forallb_app. cbn. rewrite andb_true_r.
      rewrite forallb_forall in Hfree |- *. intros a Ha.
      specialize (Hfree a Ha). now apply andb_true_iff in Hfree as [Hr _].
    + right. split; [reflexivity|exact Hrun].
  - destruct (tick_without_quit dt batch g stk cur Hstk Hbound Hq)
      as (d & g' & tr & Hfor & _ & _ & Hfree & Hrun).
    exists g', tr. split.
    + rewrite forallb_forall in Hfree |- *. intros a Ha.
      specialize (Hfree a Ha). now apply andb_true_iff in Hfree as [Hr _].
    + left. split; [reflexivity|]. split; [now exists d|exact Hrun].
Qed.

(** C10.  The pointer position is the one queried from the backend while
    an event is handled, never the one the event carries: a tick queries
    the cursor once for every event of a batch without quit, and two
    batches that differ only in the positions tagged on their events, with
    the same queried cursor positions, make [single_loop_run] behave
    identically (same result, same globals, same calls with the same
    arguments). *)
Theorem dispatch_ignores_event_positions :
  (forall (dt : Z) (batch : list polled) (g : globals) (stk : list view)
          (cur : view),
     scene_stack g = stk ++ [cur] ->
     pitft_bound g = true ->
     existsb is_quit batch = false ->
     cursor_queries (trace (single_loop_run dt batch g)) = List.length batch) /\
  (forall b1 b2 : list polled,
     differ_only_in_pos b1 b2 ->
     forall (dt : Z) (g : globals),
       single_loop_run dt b1 g = single_loop_run dt b2 g).
Proof.
  split.
  - intros dt batch g stk cur Hstk Hbound Hnq.
    pose proof (for_events_cursor_queries batch None g stk cur Hstk Hnq) as Hn.
    destruct (tick_without_quit dt batch g stk cur Hstk Hbound Hnq)
      as (d & g' & tr & Hfor & _ & _ & _ & Hrun).
    rewrite Hfor in Hn. rewrite Hrun. unfold trace in *. cbn [snd] in *.
    change (PitftUpdate :: EventGet :: tr ++
            [Update cur (dt # 1000); Draw cur; Blit cur (0, 0); DisplayFlip])
      with ([PitftUpdate; EventGet] ++ tr ++
            [Update cur (dt # 1000); Draw cur; Blit cur (0, 0); DisplayFlip]).
    rewrite !cursor_queries_app, Hn. cbn. lia.
  - intros b1 b2 Hb dt g. unfold single_loop_run, bind, gets.
    destruct (negb (0 <? List.length (scene_stack g))%nat); [reflexivity|].
    destruct (pitft_update g) as [[[u|e] g1] t1]; [|reflexivity].
    cbn. now rewrite (for_events_differ_only_in_pos b1 b2 Hb).
Qed.

(** C7.  A tick with an empty scene stack fails the assertion at the entry
    of the loop body: [AssertionError] is raised before [pitft.update()],
    before the events are polled and before any of them is handled, it
    changes nothing, and [run] does not catch it. *)
Theorem empty_stack_assertion (dt : Z) (batch : list polled) (g : globals) :
  scene_stack g = [] ->
  single_loop_run dt batch g = (Exc AssertionError, g, []) /\
  (forall rest, 500 < dt ->
     run (Tick dt batch :: rest) g = (Exc AssertionError, g, [ClockTick])).
Proof.
  intros Hempty.
  assert (Hslr : single_loop_run dt batch g = (Exc AssertionError, g, [])).
  { unfold single_loop_run, bind, gets, raise. rewrite Hempty. reflexivity. }
  split; [exact Hslr|].
  intros rest Hgate. apply Z.ltb_lt in Hgate.
  unfold run, try_except. cbn [while_true].
  unfold bind at 1. unfold call at 1.
  change (0 + dt) with dt. rewrite Hgate.
  unfold bind at 1. rewrite Hslr. reflexivity.
Qed.

End Ticks.

(** ** The loop of [run] *)

Section Loop.

Context {V : Views}.

Lemma total_dt_app (a b : list loop_input) :
  total_dt (a ++ b) = total_dt a + total_dt b.
Proof.
  induction a as [|i a IH]; cbn; [reflexivity|].
  fold (total_dt (a ++ b)) (total_dt a). lia.
Qed.

Lemma total_dt_nonneg (inputs : list loop_input) :
  clock_ok inputs -> 0 <= total_dt inputs.
Proof.
  induction 1 as [|i inputs Hi _ IH]; cbn; [lia|].
  fold (total_dt inputs). lia.
Qed.

Lemma single_loop_run_false_inv (dt : Z) (batch : list polled)
    (g g' : globals) (tr : list action) :
  single_loop_run dt batch g = (Val false, g', tr) ->
  scene_stack g' = scene_stack g /\
  pitft_bound g' = pitft_bound g /\
  forallb (fun a => negb (is_teardown a)) tr = true.
Proof.
  intros Hrun.
  destruct (scene_stack g) as [|s0 ss] eqn:Hstack.
  { unfold single_loop_run, bind, gets, raise in Hrun.
    rewrite Hstack in Hrun. discriminate. }
  destruct (exists_last (l := s0 :: ss)) as (stk & cur & Hlast);
    [discriminate|].
  rewrite Hlast in Hstack |- *. rewrite <- Hstack.
  destruct (pitft_bound g) eqn:Hbound.
  2:{ unfold single_loop_run, bind, gets, pitft_update in Hrun.
      rewrite (stack_nonempty_test g stk cur Hstack), Hbound in Hrun.
      discriminate. }
  destruct (existsb is_quit batch) eqn:Hq.
  - destruct (tick_with_quit dt batch g stk cur Hstack Hbound Hq)
      as (g1 & t1 & _ & _ & Hrun'). congruence.
  - destruct (tick_without_quit dt batch g stk cur Hstack Hbound Hq)
      as (d & g2 & t2 & _ & Hs & Hb & Hfree & Hrun').
    rewrite Hrun' in Hrun. inversion Hrun; subst g' tr.
    repeat split; try congruence.
    cbn [forallb is_teardown negb andb]. rewrite forallb_app. cbn.
    rewrite andb_true_r.
    rewrite forallb_forall in Hfree |- *. intros a Ha.
    specialize (Hfree a Ha). now apply andb_true_iff in Hfree as [_ Ht].
Qed.

(** The three ways one turn of the loop can go. *)
Lemma while_true_gated (dt : Z) (batch : list polled)
    (rest : list loop_input) (elapsed : Z) (g : globals) :
  elapsed + dt <= 500 ->
  while_true (Tick dt batch :: rest) elapsed g =
  (call ClockTick ;; while_true rest (elapsed + dt)) g.
Proof.
  intros Hgate. apply Z.ltb_ge in Hgate.
  cbn [while_true]. unfold bind at 1 3. unfold call.
  now rewrite Hgate.
Qed.

Lemma while_true_continue (dt : Z) (batch : list polled)
    (rest : list loop_input) (elapsed : Z) (g g1 : globals)
    (t1 : list action) :
  500 < elapsed + dt ->
  single_loop_run dt batch g = (Val false, g1, t1) ->
  while_true (Tick dt batch :: rest) elapsed g =
  match while_true rest (elapsed + dt) g1 with
  | (r, g2, t2) => (r, g2, ClockTick :: t1 ++ t2)
  end.
Proof.
  intros Hgate Hrun. apply Z.ltb_lt in Hgate.
  cbn [while_true]. unfold bind at 1. unfold call at 1.
  rewrite Hgate. unfold bind at 1. rewrite Hrun.
  destruct (while_true rest (elapsed + dt) g1) as [[r g2] t2]. reflexivity.
Qed.

Lemma while_true_exit (dt : Z) (batch : list polled)
    (rest : list loop_input) (elapsed : Z) (g g1 : globals)
    (t1 : list action) :
  500 < elapsed + dt ->
  single_loop_run dt batch g = (Val true, g1, t1) ->
  while_true (Tick dt batch :: rest) elapsed g =
  (Exc SystemExit, g1, ClockTick :: t1 ++ []).
Proof.
  intros Hgate Hrun. apply Z.ltb_lt in Hgate.
  cbn [while_true]. unfold bind at 1. unfold call at 1.
  rewrite Hgate. unfold bind at 1. rewrite Hrun. reflexivity.
Qed.

Lemma while_true_running_inv (inputs : list loop_input) :
  forall (elapsed : Z) (g : globals) (e : Z) (g1 : globals)
         (t1 : list action),
  while_true inputs elapsed g = (Val e, g1, t1) ->
  e = elapsed + total_dt inputs /\
  scene_stack g1 = scene_stack g /\
  pitft_bound g1 = pitft_bound g /\
  forallb (fun a => negb (is_teardown a)) t1 = true.
Proof.
  induction inputs as [|[dt batch|] rest IH]; intros elapsed g e g1 t1 Hrun.
  - inversion Hrun; subst. cbn. repeat split; try reflexivity. lia.
  - cbn [total_dt fold_right dt_of]. fold (total_dt rest).
    destruct (Z.ltb_spec 500 (elapsed + dt)) as [Hopen | Hshut].
    + destruct (single_loop_run dt batch g) as [[[[|]|x] g2] t2] eqn:Hslr.
      * rewrite (while_true_exit dt batch rest elapsed g g2 t2 Hopen Hslr)
          in Hrun. discriminate.
      * rewrite (while_true_continue dt batch rest elapsed g g2 t2 Hopen Hslr)
          in Hrun.
        destruct (while_true rest (elapsed + dt) g2) as [[r g3] t3] eqn:Hrest.
        inversion Hrun; subst r g3 t1.
        destruct (IH _ _ _ _ _ Hrest) as (He & Hs & Hb & Hfree).
        destruct (single_loop_run_false_inv dt batch g g2 t2 Hslr)
          as (Hs2 & Hb2 & Hfree2).
        repeat split; try congruence; try lia.
        cbn. now rewrite forallb_app, Hfree2, Hfree.
      * cbn [while_true] in Hrun. unfold bind at 1 in Hrun.
        unfold call at 1 in Hrun. apply Z.ltb_lt in Hopen.
        rewrite Hopen in Hrun. unfold bind at 1 in Hrun.
        rewrite Hslr in Hrun. discriminate.
    + rewrite (while_true_gated dt batch rest elapsed g Hshut) in Hrun.
      unfold bind, call in Hrun.
      destruct (while_true rest (elapsed + dt) g) as [[r g3] t3] eqn:Hrest.
      inversion Hrun; subst r g3 t1.
      destruct (IH _ _ _ _ _ Hrest) as (He & Hs & Hb & Hfree).
      repeat split; try congruence; try lia.
      cbn. exact Hfree.
  - discriminate.
Qed.

Lemma while_true_app (pre post : list loop_input) :
  forall (elapsed : Z) (g : globals) (e : Z) (g1 : globals)
         (t1 : list action),
  while_true pre elapsed g = (Val e, g1, t1) ->
  while_true (pre ++ post) elapsed g =
  match while_true post e g1 with
  | (r, g2, t2) => (r, g2, t1 ++ t2)
  end.
Proof.
  induction pre as [|[dt batch|] pre IH]; intros elapsed g e g1 t1 Hrun.
  - inversion Hrun; subst. cbn [app].
    now destruct (while_true post e g1) as [[r g2] t2].
  - change ((Tick dt batch :: pre) ++ post)
      with (Tick dt batch :: (pre ++ post)).
    destruct (Z.ltb_spec 500 (elapsed + dt)) as [Hopen | Hshut].
    + destruct (single_loop_run dt batch g) as [[[[|]|x] g2] t2] eqn:Hslr.
      * rewrite (while_true_exit dt batch pre elapsed g g2 t2 Hopen Hslr)
          in Hrun. discriminate.
      * rewrite (while_true_continue dt batch pre elapsed g g2 t2 Hopen Hslr)
          in Hrun.
        rewrite (while_true_continue dt batch (pre ++ post) elapsed g g2 t2
                   Hopen Hslr).
        destruct (while_true pre (elapsed + dt) g2) as [[r g3] t3] eqn:Hpre.
        inversion Hrun; subst r g3 t1.
        rewrite (IH _ _ _ _ _ Hpre).
        destruct (while_true post e g1) as [[r g3] t4].
        cbn [app]. now rewrite app_assoc.
      * cbn [while_true] in Hrun. unfold bind at 1 in Hrun.
        unfold call at 1 in Hrun. apply Z.ltb_lt in Hopen.
        rewrite Hopen in Hrun. unfold bind at 1 in Hrun.
        rewrite Hslr in Hrun. discriminate.
    + rewrite (while_true_gated dt batch pre elapsed g Hshut) in Hrun.
      rewrite (while_true_gated dt batch (pre ++ post) elapsed g Hshut).
      unfold bind, call in Hrun |- *.
      destruct (while_true pre (elapsed + dt) g) as [[r g3] t3] eqn:Hpre.
      inversion Hrun; subst r g3 t1.
      rewrite (IH _ _ _ _ _ Hpre).
      now destruct (while_true post e g1) as [[r g3] t4].
  - discriminate.
Qed.

Lemma while_true_before_gate (inputs : list loop_input) :
  forall (elapsed : Z) (g : globals),
  clock_ok inputs ->
  forallb is_tick inputs = true ->
  elapsed + total_dt inputs <= 500 ->
  while_true inputs elapsed g =
  (Val (elapsed + total_dt inputs), g,
   repeat ClockTick (List.length inputs)).
Proof.
  induction inputs as [|[dt batch|] rest IH]; intros elapsed g Hclock Htick Hsum.
  - cbn. unfold ret. do 3 f_equal. lia.
  - inversion Hclock as [|i l Hdt Hrest]; subst.
    cbn [total_dt fold_right dt_of] in Hsum |- *. fold (total_dt rest) in Hsum |- *.
    pose proof (total_dt_nonneg rest Hrest) as Hnn. cbn in Hdt.
    rewrite while_true_gated by lia.
    unfold bind, call. rewrite IH; [|assumption|exact Htick|lia].
    cbn. do 3 f_equal. lia.
  - discriminate.
Qed.

End Loop.

(** ** Termination of [run] and the press/release scenario *)

Section Run.

Context {V : Views}.

(** C5.  The gate of [run]: while the accumulated milliseconds do not
    exceed 500 the loop body is never entered (the only calls made are
    those to the clock, whatever the pending events are); the accumulator
    is never reset, so once it has exceeded 500 it still does after any
    further turns; and behind the gate a loop body that returns [True]
    makes [run] leave through [sys.exit()] right there. *)
Theorem run_gate :
  (forall (inputs : list loop_input) (g : globals),
     clock_ok inputs ->
     forallb is_tick inputs = true ->
     total_dt inputs <= 500 ->
     run inputs g =
       (Val (total_dt inputs), g, repeat ClockTick (List.length inputs))) /\
  (forall (p1 p2 : list loop_input) (dt : Z) (batch : list polled)
          (rest : list loop_input) (g : globals) (e : Z) (g1 : globals)
          (t1 : list action) (g2 : globals) (t2 : list action),
     clock_ok (p1 ++ p2) ->
     0 <= dt ->
     500 < total_dt p1 ->
     while_true (p1 ++ p2) 0 g = (Val e, g1, t1) ->
     single_loop_run dt batch g1 = (Val true, g2, t2) ->
     e = total_dt (p1 ++ p2) /\ 500 < e /\
     run (p1 ++ p2 ++ Tick dt batch :: rest) g =
       (Exc SystemExit, g2, t1 ++ ClockTick :: t2)).
Proof.
  split.
  - intros inputs g Hclock Htick Hsum. unfold run, try_except.
    rewrite (while_true_before_gate inputs 0 g Hclock Htick) by lia.
    reflexivity.
  - intros p1 p2 dt batch rest g e g1 t1 g2 t2 Hclock Hdt Hpassed Hpre Hexit.
    destruct (while_true_running_inv _ _ _ _ _ _ Hpre) as (He & _).
    assert (Hp2 : 0 <= total_dt p2).
    { apply total_dt_nonneg. unfold clock_ok in *.
      apply Forall_app in Hclock. tauto. }
    rewrite total_dt_app in He. rewrite total_dt_app.
    split; [lia|]. split; [lia|].
    unfold run, try_except. rewrite app_assoc.
    rewrite (while_true_app _ (Tick dt batch :: rest) _ _ _ _ _ Hpre).
    rewrite (while_true_exit dt batch rest e g1 g2 t2) by (assumption || lia).
    rewrite app_nil_r. reflexivity.
Qed.

(** C8.  Both ways out of [run] release the backend first.  With the loop
    still running after the turns [pre] (and no teardown so far): a tick
    that polls a quit event deletes [pitft] and calls [pygame.quit()] as
    its last two calls and [run] ends with [SystemExit]; a user interrupt
    makes the handler delete [pitft] and call [pygame.quit()] before
    [KeyboardInterrupt] is raised again to the caller. *)
Theorem teardown_before_termination (pre : list loop_input) (g : globals)
    (stk : list view) (cur : view) (e : Z) (g1 : globals)
    (t1 : list action) :
  scene_stack g = stk ++ [cur] ->
  pitft_bound g = true ->
  while_true pre 0 g = (Val e, g1, t1) ->
  forallb (fun a => negb (is_teardown a)) t1 = true /\
  (forall (dt : Z) (batch : list polled) (rest : list loop_input),
     500 < e + dt ->
     existsb is_quit batch = true ->
     exists g2 t2,
       forallb (fun a => negb (is_teardown a)) t2 = true /\
       pitft_bound g2 = false /\
       run (pre ++ Tick dt batch :: rest) g =
         (Exc SystemExit, g2,
          t1 ++ ClockTick :: t2 ++ [DelPitft; PygameQuit])) /\
  (forall rest : list loop_input,
     run (pre ++ Interrupt :: rest) g =
       (Exc KeyboardInterrupt, without_pitft g1,
        t1 ++ [ClockTick; DelPitft; PygameQuit])).
Proof.
  intros Hstk Hbound Hpre.
  destruct (while_true_running_inv _ _ _ _ _ _ Hpre) as (_ & Hs & Hb & Hfree).
  assert (Hstk1 : scene_stack g1 = stk ++ [cur]) by congruence.
  assert (Hbound1 : pitft_bound g1 = true) by congruence.
  split; [exact Hfree|]. split.
  - intros dt batch rest Hgate Hq.
    destruct (tick_with_quit dt batch g1 stk cur Hstk1 Hbound1 Hq)
      as (g2 & t2 & _ & Hfree2 & Hrun).
    exists (without_pitft g2), (PitftUpdate :: EventGet :: t2).
    split; [|split; [reflexivity|]].
    + cbn. rewrite forallb_forall in Hfree2 |- *. intros a Ha.
      specialize (Hfree2 a Ha). now apply andb_true_iff in Hfree2 as [_ Ht].
    + unfold run, try_except.
      rewrite (while_true_app _ (Tick dt batch :: rest) _ _ _ _ _ Hpre).
      rewrite (while_true_exit dt batch rest e g1 _ _ Hgate Hrun).
      rewrite app_nil_r. reflexivity.
  - intros rest. unfold run, try_except.
    rewrite (while_true_app _ (Interrupt :: rest) _ _ _ _ _ Hpre).
    cbn [while_true]. unfold bind, call, raise, del_pitft. cbn.
    rewrite Hbound1. cbn. now rewrite <- app_assoc.
Qed.

(** C2, as the code has it.  A press on a view [B] that is not a scene,
    followed by the release while [B] is still the recorded [down_in_view]:
    [B] receives [mouse_down]; if a view other than [B] lies under the
    release point, [B] is then blurred, focus is cleared and that view
    receives [mouse_up]; if no view lies under the release point, nothing
    is blurred and focus stays on [B].  In both cases [down_in_view] is
    cleared. *)
Theorem release_crossing_views (g : globals) (stk : list view)
    (cur B : view) (b1 b2 : Z) (pos1 pos2 p1 p2 : point)
    (d0 : option view) :
  scene_stack g = stk ++ [cur] ->
  hit cur p1 = Some B ->
  isinstance_Scene B = false ->
  let r := for_events [Polled (MOUSEBUTTONDOWN b1 pos1) p1;
                       Polled (MOUSEBUTTONUP b2 pos2) p2] d0 g in
  (forall T, hit cur p2 = Some T -> T <> B ->
     r = (Val (Exhausted None), with_focus None g,
          [MouseGetPos; Hit cur p1; FocusSet (Some B); FromWindow B p1;
           MouseDown B b1 (from_window B p1);
           MouseGetPos; Hit cur p2; Blurred B; FocusSet None;
           FromWindow T p2; MouseUp T b2 (from_window T p2)])) /\
  (hit cur p2 = None ->
     r = (Val (Exhausted None), with_focus (Some B) g,
          [MouseGetPos; Hit cur p1; FocusSet (Some B); FromWindow B p1;
           MouseDown B b1 (from_window B p1);
           MouseGetPos; Hit cur p2])).
Proof.
  intros Hstk Hhit1 Hcls r. subst r.
  assert (Hcur : forall f, scene_current (with_focus f g) =
                           (Val cur, with_focus f g, [])).
  { intros f. apply (scene_current_top _ stk). exact Hstk. }
  pose proof (scene_current_top g stk cur Hstk) as Hcur0.
  cbn [for_events ev cursor]. unfold dispatch. run_monad.
  rewrite Hcur0. cbn. rewrite Hhit1, Hcls. cbn.
  rewrite Hcur. cbn.
  split.
  - intros T Hhit2 Hne. rewrite Hhit2.
    assert (Hneb : view_neb T B = true) by now apply view_neb_true_iff.
    rewrite Hneb. reflexivity.
  - intros ->. reflexivity.
Qed.

End Run.

(** ** Concrete runs on the small scene *)

(** C1.  The local [down_in_view] does not survive a tick.  A press on the
    draggable button in one tick leaves [down_in_view] set when the [for]
    loop ends, yet a move polled in the next tick goes to the scene's
    [mouse_motion]: [single_loop_run] starts every tick from [None].  The
    same two events polled in one batch end in [mouse_drag] on the
    button. *)
Theorem down_in_view_lost_between_ticks :
  let press := Polled (MOUSEBUTTONDOWN 1 (10, 10)) (10, 10) in
  let move := Polled (MOUSEMOTION (12, 12) (2, 2)) (12, 12) in
  down_in_view_at_end (V := demo_views) [press] demo_globals
    = Some (Exhausted (Some 1%nat)) /\
  trace (run (V := demo_views) [Tick 600 [press]; Tick 16 [move]] demo_globals)
    = [ClockTick; PitftUpdate; EventGet;
       MouseGetPos; Hit 0 (10, 10); FocusSet (Some 1%nat);
       FromWindow 1 (10, 10); MouseDown 1 1 (10, 10);
       Update 0 (600 # 1000); Draw 0; Blit 0 (0, 0); DisplayFlip;
       ClockTick; PitftUpdate; EventGet;
       MouseGetPos; MouseMotion 0 (12, 12);
       Update 0 (16 # 1000); Draw 0; Blit 0 (0, 0); DisplayFlip] /\
  trace (run (V := demo_views) [Tick 616 [press; move]] demo_globals)
    = [ClockTick; PitftUpdate; EventGet;
       MouseGetPos; Hit 0 (10, 10); FocusSet (Some 1%nat);
       FromWindow 1 (10, 10); MouseDown 1 1 (10, 10);
       MouseGetPos; FromWindow 1 (12, 12); MouseDrag 1 (12, 12) (2, 2);
       Update 0 (616 # 1000); Draw 0; Blit 0 (0, 0); DisplayFlip].
Proof. repeat split; vm_compute; reflexivity. Qed.

(** C2, as stated, fails: a press on the button followed, in the same
    batch, by a release at (400,400), where no view lies, blurs nothing and
    leaves the focus on the button. *)
Lemma release_outside_always_blurs_fails :
  ~ release_outside_always_blurs demo_views.
Proof.
  intros Hclaim.
  assert (Hout : hit (Views := demo_views) 0%nat (400, 400) <> Some 1%nat)
    by (vm_compute; discriminate).
  destruct (Hclaim demo_globals [] 0%nat 1%nat 1 1 (10, 10) (400, 400)
              (10, 10) (400, 400) eq_refl eq_refl eq_refl Hout)
    as [_ Hfocus].
  vm_compute in Hfocus. discriminate Hfocus.
Qed.

Lemma release_crossing_views_witness :
  scene_stack demo_globals = [] ++ [0%nat] /\
  for_events (V := demo_views)
    [Polled (MOUSEBUTTONDOWN 1 (10, 10)) (10, 10);
     Polled (MOUSEBUTTONUP 1 (120, 130)) (120, 130)] None demo_globals =
  (Val (Exhausted None), with_focus None demo_globals,
   [MouseGetPos; Hit 0 (10, 10); FocusSet (Some 1%nat);
    FromWindow 1 (10, 10); MouseDown 1 1 (10, 10);
    MouseGetPos; Hit 0 (120, 130); Blurred 1; FocusSet None;
    FromWindow 2 (120, 130); MouseUp 2 1 (20, 30)]).
Proof.
  split; [reflexivity|].
  apply (proj1 (release_crossing_views (V := demo_views) demo_globals []
                  0%nat 1%nat 1 1 (10, 10) (120, 130) (10, 10) (120, 130)
                  None eq_refl eq_refl eq_refl) 2%nat eq_refl).
  discriminate.
Defined.

Lemma pointer_up_dispatch_witness :
  scene_stack demo_globals = [] ++ [0%nat] /\
  dispatch (V := demo_views) (MOUSEBUTTONUP 1 (7, 7)) (120, 130)
    (Some 1%nat) demo_globals =
  (Val None, with_focus None demo_globals,
   [Hit 0 (120, 130); Blurred 1; FocusSet None;
    FromWindow 2 (120, 130); MouseUp 2 1 (20, 30)]).
Proof.
  split; [reflexivity|].
  apply (proj1 (proj2 (pointer_up_dispatch (V := demo_views) demo_globals []
                         0%nat 1 (7, 7) (120, 130) (Some 1%nat) eq_refl))
           2%nat 1%nat eq_refl eq_refl).
  discriminate.
Defined.

Lemma pointer_down_dispatch_witness :
  scene_stack demo_globals = [] ++ [0%nat] /\
  dispatch (V := demo_views) (MOUSEBUTTONDOWN 1 (7, 7)) (10, 10) None
    demo_globals =
  (Val (Some 1%nat), with_focus (Some 1%nat) demo_globals,
   [Hit 0 (10, 10); FocusSet (Some 1%nat); FromWindow 1 (10, 10);
    MouseDown 1 1 (10, 10)]).
Proof.
  split; [reflexivity|].
  refine (proj1 (pointer_down_dispatch (V := demo_views) demo_globals []
                   0%nat 1 (7, 7) (10, 10) None eq_refl _)
            1%nat eq_refl _).
  - intros hv Hhit. vm_compute in Hhit. injection Hhit as <-.
    split; discriminate.
  - discriminate.
Defined.

Lemma pointer_move_dispatch_witness :
  scene_stack demo_globals = [] ++ [0%nat] /\
  dispatch (V := demo_views) (MOUSEMOTION (7, 7) (2, 3)) (12, 13)
    (Some 1%nat) demo_globals =
  (Val (Some 1%nat), demo_globals,
   [FromWindow 1 (12, 13); MouseDrag 1 (12, 13) (2, 3)]).
Proof.
  split; [reflexivity|].
  apply (proj1 (pointer_move_dispatch (V := demo_views) demo_globals []
                  0%nat (7, 7) (2, 3) (12, 13) (Some 1%nat) eq_refl)
           1%nat eq_refl eq_refl).
Defined.

Lemma dispatch_ignores_event_positions_witness :
  differ_only_in_pos
    [Polled (MOUSEBUTTONDOWN 1 (10, 10)) (10, 10)]
    [Polled (MOUSEBUTTONDOWN 1 (300, 200)) (10, 10)] /\
  single_loop_run (V := demo_views) 16
    [Polled (MOUSEBUTTONDOWN 1 (10, 10)) (10, 10)] demo_globals =
  single_loop_run (V := demo_views) 16
    [Polled (MOUSEBUTTONDOWN 1 (300, 200)) (10, 10)] demo_globals /\
  cursor_queries
    (trace (single_loop_run (V := demo_views) 16
              [Polled (MOUSEBUTTONDOWN 1 (10, 10)) (10, 10);
               Polled (KEYUP 27) (11, 10)] demo_globals)) = 2%nat.
Proof.
  assert (Hdiff : differ_only_in_pos
            [Polled (MOUSEBUTTONDOWN 1 (10, 10)) (10, 10)]
            [Polled (MOUSEBUTTONDOWN 1 (300, 200)) (10, 10)]).
  { repeat constructor. }
  split; [exact Hdiff|]. split.
  - apply (proj2 (dispatch_ignores_event_positions (V := demo_views))
             _ _ Hdiff).
  - apply (proj1 (dispatch_ignores_event_positions (V := demo_views))
             16 [Polled (MOUSEBUTTONDOWN 1 (10, 10)) (10, 10);
                 Polled (KEYUP 27) (11, 10)]
             demo_globals [] 0%nat eq_refl eq_refl eq_refl).
Defined.

Lemma tick_order_witness :
  scene_stack demo_globals = [] ++ [0%nat] /\
  pitft_bound demo_globals = true /\
  exists g' tr,
    forallb (fun a => negb (is_render a)) tr = true /\
    ((existsb is_quit [Polled (KEYDOWN 97 "a") (5, 5)] = false /\
      (exists d, for_events (V := demo_views) [Polled (KEYDOWN 97 "a") (5, 5)]
                   None demo_globals = (Val (Exhausted d), g', tr)) /\
      single_loop_run (V := demo_views) 16 [Polled (KEYDOWN 97 "a") (5, 5)]
        demo_globals =
        (Val false, g',
         [PitftUpdate; EventGet] ++ tr ++
         [Update 0 (16 # 1000); Draw 0; Blit 0 (0, 0); DisplayFlip]))
     \/
     (existsb is_quit [Polled (KEYDOWN 97 "a") (5, 5)] = true /\
      single_loop_run (V := demo_views) 16 [Polled (KEYDOWN 97 "a") (5, 5)]
        demo_globals = (Val true, g', [PitftUpdate; EventGet] ++ tr))).
Proof.
  split; [reflexivity|]. split; [reflexivity|].
  apply (tick_order (V := demo_views) 16 [Polled (KEYDOWN 97 "a") (5, 5)]
           demo_globals [] 0%nat eq_refl eq_refl).
Defined.

Lemma empty_stack_assertion_witness :
  scene_stack (Globals [] None true) = [] /\
  single_loop_run (V := demo_views) 16 [Polled QUIT (0, 0)]
    (Globals [] None true) =
  (Exc AssertionError, Globals [] None true, []) /\
  run (V := demo_views) [Tick 600 []; Tick 16 []] (Globals [] None true) =
  (Exc AssertionError, Globals [] None true, [ClockTick]).
Proof.
  split; [reflexivity|]. split.
  - apply (proj1 (empty_stack_assertion (V := demo_views) 16
                    [Polled QUIT (0, 0)] (Globals [] None true) eq_refl)).
  - apply (proj2 (empty_stack_assertion (V := demo_views) 600 []
                    (Globals [] None true) eq_refl) [Tick 16 []]).
    lia.
Defined.

Lemma run_gate_witness :
  run (V := demo_views) [Tick 100 [Polled QUIT (0, 0)]; Tick 400 []]
    demo_globals =
  (Val 500, demo_globals, [ClockTick; ClockTick]) /\
  value (run (V := demo_views)
           ([Tick 600 []] ++ [Tick 16 []] ++
            Tick 16 [Polled QUIT (0, 0)] :: [Tick 16 []]) demo_globals) =
  Exc SystemExit.
Proof.
  split.
  - apply (proj1 (run_gate (V := demo_views))
             [Tick 100 [Polled QUIT (0, 0)]; Tick 400 []] demo_globals).
    + repeat constructor; cbn; lia.
    + reflexivity.
    + cbn. lia.
  - edestruct (proj2 (run_gate (V := demo_views))
                 [Tick 600 []] [Tick 16 []] 16 [Polled QUIT (0, 0)]
                 [Tick 16 []] demo_globals) as (_ & _ & Hrun).
    + repeat constructor; cbn; lia.
    + lia.
    + cbn. lia.
    + vm_compute. reflexivity.
    + vm_compute. reflexivity.
    + rewrite Hrun. reflexivity.
Defined.

Lemma teardown_before_termination_witness :
  scene_stack demo_globals = [] ++ [0%nat] /\
  pitft_bound demo_globals = true /\
  run (V := demo_views) ([Tick 600 []] ++ Interrupt :: [Tick 16 []])
    demo_globals =
  (Exc KeyboardInterrupt, without_pitft demo_globals,
   [ClockTick; PitftUpdate; EventGet;
    Update 0 (600 # 1000); Draw 0; Blit 0 (0, 0); DisplayFlip] ++
   [ClockTick; DelPitft; PygameQuit]).
Proof.
  split; [reflexivity|]. split; [reflexivity|].
  apply (proj2 (proj2 (teardown_before_termination (V := demo_views)
                         [Tick 600 []] demo_globals [] 0%nat 600
                         demo_globals
                         [ClockTick; PitftUpdate; EventGet;
                          Update 0 (600 # 1000); Draw 0; Blit 0 (0, 0);
                          DisplayFlip]
                         eq_refl eq_refl eq_refl))).
Defined.

(** ** Further properties of the dispatcher *)

Section More.

Context {V : Views}.

(** X1.  Key events go to the focused view if there is one and to the
    current scene otherwise, with the key (and the character, for a
    key-down); they change neither the focus nor [down_in_view]. *)
Theorem key_dispatch (g : globals) (stk : list view) (cur : view)
    (key : Z) (unicode : string) (mousepoint : point)
    (down : option view) :
  scene_stack g = stk ++ [cur] ->
  dispatch (KEYDOWN key unicode) mousepoint down g =
    (Val down, g, [KeyDown (key_target g cur) key unicode]) /\
  dispatch (KEYUP key) mousepoint down g =
    (Val down, g, [KeyUp (key_target g cur) key]).
Proof.
  intros Hstk. pose proof (scene_current_top g stk cur Hstk) as Hcur.
  unfold dispatch, key_target. run_monad.
  destruct (focus_view g) as [v|]; [split; reflexivity|].
  rewrite Hcur. split; reflexivity.
Qed.


Lemma for_events_after_quit (pre : list polled) (q : polled)
    (post : list polled) :
  is_quit q = true ->
  forall d g, for_events (pre ++ q :: post) d g = for_events (pre ++ [q]) d g.
Proof.
  intros Hq. induction pre as [|p pre IH]; intros d g.
  - cbn [app]. now rewrite !for_events_quit_head.
  - cbn [app]. destruct (is_quit p) eqn:Hp.
    + now rewrite !for_events_quit_head.
    + rewrite !for_events_step by exact Hp. unfold bind, call.
      destruct (dispatch (ev p) (cursor p) d g) as [[[d1|x] g1] t1];
        [|reflexivity].
      now rewrite IH.
Qed.

(** X3.  A quit event ends the tick on the spot: whatever follows it in the
    batch is never handled, so the tick behaves as if the batch ended with
    the quit event. *)
Theorem events_after_quit_dropped (dt : Z) (pre : list polled) (q : polled)
    (post : list polled) (g : globals) :
  is_quit q = true ->
  single_loop_run dt (pre ++ q :: post) g =
  single_loop_run dt (pre ++ [q]) g.
Proof.
  intros Hq. unfold single_loop_run, bind, gets.
  destruct (negb (0 <? List.length (scene_stack g))%nat); [reflexivity|].
  destruct (pitft_update g) as [[[u|x] g1] t1]; [|reflexivity].
  cbn. now rewrite (for_events_after_quit pre q post Hq).
Qed.


(** X7.  A tick that polled a quit event leaves the dispatcher unusable:
    any later call of [single_loop_run] raises [NameError] at
    [pitft.update()], before it polls or draws anything. *)
Theorem tick_after_quit (dt : Z) (batch : list polled) (g : globals)
    (stk : list view) (cur : view) :
  scene_stack g = stk ++ [cur] ->
  pitft_bound g = true ->
  existsb is_quit batch = true ->
  exists g1 tr,
    single_loop_run dt batch g = (Val true, g1, tr) /\
    forall dt' batch',
      single_loop_run dt' batch' g1 = (Exc NameError, g1, []).
Proof.
  intros Hstk Hbound Hq.
  destruct (tick_with_quit dt batch g stk cur Hstk Hbound Hq)
    as (g1 & tr & Hs & _ & Hrun).
  eexists _, _. split; [exact Hrun|].
  intros dt' batch'. unfold single_loop_run, bind, gets, pitft_update.
  assert (Hstk1 : scene_stack (without_pitft g1) = stk ++ [cur])
    by (cbn; congruence).
  rewrite (stack_nonempty_test _ stk cur Hstk1). reflexivity.
Qed.

(** X11.  The focus, unlike [down_in_view], is kept from tick to tick: after
    a tick with a press on the view [B], a key-down polled in a later tick
    goes to [B]. *)
Theorem focus_survives_ticks (g : globals) (stk : list view) (cur B : view)
    (button : Z) (pos p c : point) (dt1 dt2 : Z) (key : Z)
    (unicode : string) :
  scene_stack g = stk ++ [cur] ->
  pitft_bound g = true ->
  hit cur p = Some B ->
  isinstance_Scene B = false ->
  exists g1 t1,
    single_loop_run dt1 [Polled (MOUSEBUTTONDOWN button pos) p] g =
      (Val false, g1, t1) /\
    single_loop_run dt2 [Polled (KEYDOWN key unicode) c] g1 =
      (Val false, g1,
       [PitftUpdate; EventGet; MouseGetPos; KeyDown B key unicode;
        Update cur (dt2 # 1000); Draw cur; Blit cur (0, 0); DisplayFlip]).
Proof.
  intros Hstk Hbound Hhit Hcls.
  assert (Hcur : forall f, scene_current (with_focus f g) =
                           (Val cur, with_focus f g, [])).
  { intros f. apply (scene_current_top _ stk). exact Hstk. }
  pose proof (scene_current_top g stk cur Hstk) as Hcur0.
  exists (with_focus (Some B) g). eexists. split.
  - unfold single_loop_run, bind at 1, gets.
    rewrite (stack_nonempty_test g stk cur Hstk).
    unfold pitft_update, render. cbn [for_events ev cursor].
    unfold dispatch. run_monad. rewrite Hbound, Hcur0. cbn.
    rewrite Hhit, Hcls. cbn. repeat (rewrite Hcur; cbn). reflexivity.
  - unfold single_loop_run, bind at 1, gets.
    assert (Hstk1 : scene_stack (with_focus (Some B) g) = stk ++ [cur])
      by exact Hstk.
    rewrite (stack_nonempty_test _ stk cur Hstk1).
    unfold pitft_update, render. cbn [for_events ev cursor].
    unfold dispatch. run_monad. cbn. rewrite Hbound. cbn.
    repeat (rewrite Hcur; cbn). reflexivity.
Qed.

End More.

(** ** What a batch does and does not do *)

Section Batchwise.

Context {V : Views}.

Lemma drop_queries_app (t1 t2 : list action) :
  drop_queries (t1 ++ t2) = drop_queries t1 ++ drop_queries t2.
Proof. unfold drop_queries. apply filter_app. Qed.

Lemma for_events_unknown (batch : list polled) :
  forall (d : option view) (g : globals),
  value (for_events batch d g) =
    value (for_events (filter (fun p => negb (is_other p)) batch) d g) /\
  final (for_events batch d g) =
    final (for_events (filter (fun p => negb (is_other p)) batch) d g) /\
  drop_queries (trace (for_events batch d g)) =
    drop_queries
      (trace (for_events (filter (fun p => negb (is_other p)) batch) d g)).
Proof.
  induction batch as [|p rest IH]; intros d g; [repeat split|].
  cbn [filter]. destruct (is_other p) eqn:Hother; cbn [negb].
  - assert (Hq : is_quit p = false)
      by (unfold is_other, is_quit in *; destruct (ev p); congruence).
    rewrite for_events_step by exact Hq.
    assert (Hd : dispatch (ev p) (cursor p) d g = (Val d, g, [])).
    { unfold is_other in Hother. destruct (ev p); try discriminate.
      reflexivity. }
    unfold bind, call. rewrite Hd.
    destruct (IH d g) as (Hv & Hf & Ht).
    destruct (for_events rest d g) as [[r g2] t2].
    unfold value, final, trace in *. cbn [fst snd app] in *.
    repeat split; assumption.
  - destruct (is_quit p) eqn:Hq.
    + rewrite !for_events_quit_head by exact Hq. repeat split.
    + rewrite !for_events_step by exact Hq. unfold bind, call.
      destruct (dispatch (ev p) (cursor p) d g) as [[[d1|x] g1] t1];
        [|repeat split].
      destruct (IH d1 g1) as (Hv & Hf & Ht).
      destruct (for_events rest d1 g1) as [[r g2] t2].
      destruct (for_events (filter (fun p0 => negb (is_other p0)) rest) d1 g1)
        as [[r' g2'] t2'].
      unfold value, final, trace in *. cbn [fst snd app] in *.
      repeat split; try assumption.
      change (MouseGetPos :: t1 ++ t2) with ([MouseGetPos] ++ t1 ++ t2).
      change (MouseGetPos :: t1 ++ t2') with ([MouseGetPos] ++ t1 ++ t2').
      rewrite !drop_queries_app. now rewrite Ht.
Qed.

Lemma drop_queries_frame (t t' : list action) :
  drop_queries t = drop_queries t' ->
  forall (pre : list action) (a : action) (post : list action),
  drop_queries (pre ++ a :: t ++ post) = drop_queries (pre ++ a :: t' ++ post).
Proof.
  intros Ht pre a post.
  change (a :: t ++ post) with ([a] ++ t ++ post).
  change (a :: t' ++ post) with ([a] ++ t' ++ post).
  rewrite !drop_queries_app. now rewrite Ht.
Qed.

(** X4.  Events of a type the dispatcher has no branch for are ignored:
    taking them out of a batch changes neither the result of the tick nor
    the globals, and the calls made are the same apart from the cursor
    queries made for the ignored events. *)
Theorem unknown_events_ignored (dt : Z) (batch : list polled) (g : globals) :
  value (single_loop_run dt batch g) =
    value (single_loop_run dt (filter (fun p => negb (is_other p)) batch) g) /\
  final (single_loop_run dt batch g) =
    final (single_loop_run dt (filter (fun p => negb (is_other p)) batch) g) /\
  drop_queries (trace (single_loop_run dt batch g)) =
    drop_queries
      (trace (single_loop_run dt
                (filter (fun p => negb (is_other p)) batch) g)).
Proof.
  unfold single_loop_run, bind, gets, call, ret.
  destruct (negb (0 <? List.length (scene_stack g))%nat); [repeat split|].
  destruct (pitft_update g) as [[[u|x] g1] t1]; [|repeat split].
  destruct (for_events_unknown batch None g1) as (Hv & Hf & Ht).
  destruct (for_events batch None g1) as [[r g2] t2].
  destruct (for_events (filter (fun p => negb (is_other p)) batch) None g1)
    as [[r' g2'] t2'].
  unfold value, final, trace in *. cbn [fst snd] in Hv, Hf, Ht.
  subst r' g2'.
  destruct r as [[|d]|x];
    [|destruct (render dt g2) as [[[u'|x] g3] t3]|];
    cbn; repeat split; try (now apply drop_queries_frame).
  rewrite <- (app_nil_r t2), <- (app_nil_r t2').
  now apply drop_queries_frame.
Qed.

Lemma dispatch_without_press (e : event) (mp : point) (g : globals) :
  match e with MOUSEBUTTONDOWN _ _ => False | _ => True end ->
  existsb is_drag_or_blur (trace (dispatch e mp None g)) = false /\
  forall d', value (dispatch e mp None g) = Val d' -> d' = None.
Proof.
  intros He. destruct e; try contradiction;
    unfold dispatch, scene_current; run_monad; cbn;
    try destruct (focus_view g); cbn;
    destruct (rev (scene_stack g)) as [|top stk]; cbn;
    try destruct (hit top mp); cbn;
    (split; [reflexivity|]); intros d' Hd; inversion Hd; reflexivity.
Qed.

Lemma render_no_drag (dt : Z) (g : globals) :
  existsb is_drag_or_blur (trace (render dt g)) = false.
Proof.
  unfold render, scene_current. run_monad.
  destruct (rev (scene_stack g)) eqn:Htop; [reflexivity|].
  do 2 (cbn; rewrite Htop). reflexivity.
Qed.

Lemma for_events_without_press (batch : list polled) :
  forall g : globals,
  existsb is_press batch = false ->
  existsb is_drag_or_blur (trace (for_events batch None g)) = false.
Proof.
  induction batch as [|p rest IH]; intros g Hnp; [reflexivity|].
  cbn [existsb] in Hnp. apply orb_false_iff in Hnp as [Hp Hrest].
  destruct (is_quit p) eqn:Hq.
  - rewrite for_events_quit_head by exact Hq.
    unfold bind, del_pitft, call, ret. destruct (pitft_bound g); reflexivity.
  - rewrite for_events_step by exact Hq. unfold bind, call.
    assert (He : match ev p with MOUSEBUTTONDOWN _ _ => False | _ => True end)
      by (unfold is_press in Hp; destruct (ev p); (exact I || discriminate)).
    destruct (dispatch_without_press (ev p) (cursor p) g He) as [Hclean Hnone].
    destruct (dispatch (ev p) (cursor p) None g) as [[[d1|x] g1] t1].
    + rewrite (Hnone d1 eq_refl). specialize (IH g1 Hrest).
      destruct (for_events rest None g1) as [[r g2] t2].
      unfold trace in *. cbn [snd app] in *.
      cbn [existsb is_drag_or_blur orb].
      now rewrite existsb_app, Hclean, IH.
    + exact Hclean.
Qed.

(** X6.  A press is only remembered within its own batch: a tick whose
    batch holds no pointer-down never calls [mouse_drag] and never blurs a
    view, whatever was pressed in earlier ticks. *)
Theorem no_press_no_drag (dt : Z) (batch : list polled) (g : globals) :
  existsb is_press batch = false ->
  existsb is_drag_or_blur (trace (single_loop_run dt batch g)) = false.
Proof.
  intros Hnp. unfold single_loop_run, bind, gets, call, ret, raise.
  destruct (negb (0 <? List.length (scene_stack g))%nat); [reflexivity|].
  unfold pitft_update. destruct (pitft_bound g); [|reflexivity].
  pose proof (for_events_without_press batch g Hnp) as Hfor.
  destruct (for_events batch None g) as [[[[|d]|x] g2] t2];
    unfold trace in *; cbn [snd app] in *.
  - cbn [existsb is_drag_or_blur orb]. now rewrite existsb_app, Hfor.
  - pose proof (render_no_drag dt g2) as Hr.
    destruct (render dt g2) as [[[u|x] g3] t3];
      unfold trace in Hr; cbn [snd] in Hr; cbn;
      rewrite ?existsb_app, Hfor, ?Hr; reflexivity.
  - cbn [existsb is_drag_or_blur orb]. exact Hfor.
Qed.

Lemma dispatch_without_button (e : event) (mp : point) (d : option view)
    (g : globals) :
  match e with
  | MOUSEBUTTONDOWN _ _ | MOUSEBUTTONUP _ _ => False
  | _ => True
  end ->
  final (dispatch e mp d g) = g.
Proof.
  intros He. destruct e; try contradiction;
    unfold dispatch, scene_current; run_monad; cbn;
    try destruct d as [d0|]; try destruct (draggable d0);
    try destruct (focus_view g) eqn:Hf; cbn;
    destruct (rev (scene_stack g)) as [|top stk]; reflexivity.
Qed.

Lemma for_events_without_button (batch : list polled) :
  forall (d : option view) (g : globals),
  existsb is_button batch = false ->
  focus_view (final (for_events batch d g)) = focus_view g.
Proof.
  induction batch as [|p rest IH]; intros d g Hnb; [reflexivity|].
  cbn [existsb] in Hnb. apply orb_false_iff in Hnb as [Hp Hrest].
  destruct (is_quit p) eqn:Hq.
  - rewrite for_events_quit_head by exact Hq.
    unfold bind, del_pitft, call, ret. destruct (pitft_bound g); reflexivity.
  - rewrite for_events_step by exact Hq. unfold bind, call.
    assert (He : match ev p with
                 | MOUSEBUTTONDOWN _ _ | MOUSEBUTTONUP _ _ => False
                 | _ => True
                 end)
      by (unfold is_button in Hp; destruct (ev p); (exact I || discriminate)).
    pose proof (dispatch_without_button (ev p) (cursor p) d g He) as Hsame.
    destruct (dispatch (ev p) (cursor p) d g) as [[[d1|x] g1] t1];
      unfold final in Hsame; cbn [fst snd] in Hsame; subst g1.
    + specialize (IH d1 g Hrest).
      destruct (for_events rest d1 g) as [[r g2] t2]. exact IH.
    + reflexivity.
Qed.

(** X12.  Only mouse-button events move the focus: after a tick whose batch
    holds neither a pointer-down nor a pointer-up, [focus.view] is what it
    was before, whether the tick completed, was cut short by a quit event
    or raised. *)
Theorem focus_changes_only_on_buttons (dt : Z) (batch : list polled)
    (g : globals) :
  existsb is_button batch = false ->
  focus_view (final (single_loop_run dt batch g)) = focus_view g.
Proof.
  intros Hnb. unfold single_loop_run, bind, gets, call, ret, raise.
  destruct (negb (0 <? List.length (scene_stack g))%nat); [reflexivity|].
  unfold pitft_update. destruct (pitft_bound g); [|reflexivity].
  pose proof (for_events_without_button batch None g Hnb) as Hfor.
  destruct (for_events batch None g) as [[[[|d]|x] g2] t2];
    unfold final in *; cbn [fst snd] in *; try exact Hfor.
  assert (Hr : final (render dt g2) = g2).
  { unfold render, scene_current. run_monad.
    destruct (rev (scene_stack g2)) eqn:Htop; [reflexivity|].
    do 2 (cbn; rewrite Htop). reflexivity. }
  destruct (render dt g2) as [[[u|x] g3] t3];
    unfold final in Hr; cbn [fst snd] in Hr |- *; subst g3; exact Hfor.
Qed.

End Batchwise.

(** ** How [run] can end, and what it draws *)

Section Ends.

Context {V : Views}.










Lemma stack_nonempty_test' (g : globals) :
  scene_stack g <> [] ->
  negb (0 <? List.length (scene_stack g))%nat = false.
Proof. destruct (scene_stack g); [contradiction|reflexivity]. Qed.

(** X10.  [run] cannot be entered again once [pitft] has been deleted: the
    first tick behind the gate raises [NameError] at [pitft.update()], and
    a user interrupt before that is lost, because the handler's own
    [del(pitft)] raises [NameError] in its place and [pygame.quit()] is not
    called. *)
Theorem run_after_teardown (pre : list loop_input) (g : globals) :
  pitft_bound g = false ->
  clock_ok pre ->
  forallb is_tick pre = true ->
  total_dt pre <= 500 ->
  (forall rest : list loop_input,
     run (pre ++ Interrupt :: rest) g =
       (Exc NameError, g, repeat ClockTick (S (List.length pre)))) /\
  (forall (dt : Z) (batch : list polled) (rest : list loop_input),
     500 < total_dt pre + dt ->
     scene_stack g <> [] ->
     run (pre ++ Tick dt batch :: rest) g =
       (Exc NameError, g, repeat ClockTick (S (List.length pre)))).
Proof.
  intros Hgone Hclock Htick Hshut.
  pose proof (while_true_before_gate pre 0 g Hclock Htick) as Hpre.
  rewrite Z.add_0_l in Hpre. specialize (Hpre Hshut).
  assert (Hticks : repeat ClockTick (List.length pre) ++ [ClockTick] =
                   repeat ClockTick (S (List.length pre))).
  { symmetry. apply (repeat_cons (List.length pre) ClockTick). }
  split.
  - intros rest. unfold run, try_except.
    rewrite (while_true_app pre (Interrupt :: rest) 0 g _ _ _ Hpre).
    cbn [while_true]. unfold bind, call, raise, del_pitft. cbn.
    rewrite Hgone. now rewrite app_nil_r, Hticks.
  - intros dt batch rest Hopen Hstk. unfold run, try_except.
    rewrite (while_true_app pre (Tick dt batch :: rest) 0 g _ _ _ Hpre).
    apply Z.ltb_lt in Hopen. cbn [while_true].
    unfold bind at 1. unfold call at 1. rewrite Hopen.
    assert (Hslr : single_loop_run dt batch g = (Exc NameError, g, [])).
    { unfold single_loop_run, bind, gets, pitft_update.
      rewrite (stack_nonempty_test' g Hstk), Hgone. reflexivity. }
    unfold bind at 1. rewrite Hslr. cbn. now rewrite Hticks.
Qed.

End Ends.

Section Drag.

Context {V : Views}.

(** X13.  A drag within one batch: a press on a draggable view [B] (not a
    scene) followed by a move sends the move to [B] as [mouse_drag], with
    the queried point in [B]'s local space and the event's relative delta;
    [B] stays the recorded [down_in_view] and keeps the focus. *)
Theorem drag_within_batch (g : globals) (stk : list view) (cur B : view)
    (b1 : Z) (pos1 pos2 rel p1 p2 : point) (d0 : option view) :
  scene_stack g = stk ++ [cur] ->
  hit cur p1 = Some B ->
  isinstance_Scene B = false ->
  draggable B = true ->
  for_events [Polled (MOUSEBUTTONDOWN b1 pos1) p1;
              Polled (MOUSEMOTION pos2 rel) p2] d0 g =
  (Val (Exhausted (Some B)), with_focus (Some B) g,
   [MouseGetPos; Hit cur p1; FocusSet (Some B); FromWindow B p1;
    MouseDown B b1 (from_window B p1);
    MouseGetPos; FromWindow B p2; MouseDrag B (from_window B p2) rel]).
Proof.
  intros Hstk Hhit Hcls Hdrag.
  pose proof (scene_current_top g stk cur Hstk) as Hcur0.
  cbn [for_events ev cursor]. unfold dispatch. run_monad.
  rewrite Hcur0. cbn. rewrite Hhit, Hcls. cbn. rewrite Hdrag. reflexivity.
Qed.

End Drag.

(** ** Concrete runs of the further properties *)

Lemma key_dispatch_witness :
  scene_stack demo_globals = [] ++ [0%nat] /\
  dispatch (V := demo_views) (KEYDOWN 97 "a") (5, 5) None
    (with_focus (Some 2%nat) demo_globals) =
  (Val None, with_focus (Some 2%nat) demo_globals, [KeyDown 2 97 "a"]) /\
  dispatch (V := demo_views) (KEYUP 97) (5, 5) None demo_globals =
  (Val None, demo_globals, [KeyUp 0 97]).
Proof.
  split; [reflexivity|]. split.
  - apply (proj1 (key_dispatch (V := demo_views)
                    (with_focus (Some 2%nat) demo_globals) [] 0%nat 97 "a"
                    (5, 5) None eq_refl)).
  - apply (proj2 (key_dispatch (V := demo_views) demo_globals [] 0%nat 97 "a"
                    (5, 5) None eq_refl)).
Defined.


Lemma events_after_quit_dropped_witness :
  is_quit (Polled QUIT (5, 5)) = true /\
  single_loop_run (V := demo_views) 16
    ([Polled (KEYUP 97) (5, 5)] ++ Polled QUIT (5, 5) ::
     [Polled (MOUSEBUTTONDOWN 1 (10, 10)) (10, 10)]) demo_globals =
  single_loop_run (V := demo_views) 16
    ([Polled (KEYUP 97) (5, 5)] ++ [Polled QUIT (5, 5)]) demo_globals.
Proof.
  split; [reflexivity|].
  apply (events_after_quit_dropped (V := demo_views) 16
           [Polled (KEYUP 97) (5, 5)] (Polled QUIT (5, 5))
           [Polled (MOUSEBUTTONDOWN 1 (10, 10)) (10, 10)] demo_globals
           eq_refl).
Defined.


Lemma no_press_no_drag_witness :
  existsb is_press
    [Polled (MOUSEMOTION (12, 12) (2, 2)) (12, 12);
     Polled (MOUSEBUTTONUP 1 (120, 130)) (120, 130)] = false /\
  existsb is_drag_or_blur
    (trace (single_loop_run (V := demo_views) 16
              [Polled (MOUSEMOTION (12, 12) (2, 2)) (12, 12);
               Polled (MOUSEBUTTONUP 1 (120, 130)) (120, 130)]
              (with_focus (Some 1%nat) demo_globals))) = false.
Proof.
  split; [reflexivity|].
  apply (no_press_no_drag (V := demo_views) 16
           [Polled (MOUSEMOTION (12, 12) (2, 2)) (12, 12);
            Polled (MOUSEBUTTONUP 1 (120, 130)) (120, 130)]
           (with_focus (Some 1%nat) demo_globals) eq_refl).
Defined.

Lemma tick_after_quit_witness :
  scene_stack demo_globals = [] ++ [0%nat] /\
  pitft_bound demo_globals = true /\
  exists g1 tr,
    single_loop_run (V := demo_views) 16 [Polled QUIT (5, 5)] demo_globals =
      (Val true, g1, tr) /\
    forall dt' batch',
      single_loop_run (V := demo_views) dt' batch' g1 =
        (Exc NameError, g1, []).
Proof.
  split; [reflexivity|]. split; [reflexivity|].
  apply (tick_after_quit (V := demo_views) 16 [Polled QUIT (5, 5)]
           demo_globals [] 0%nat eq_refl eq_refl eq_refl).
Defined.

Lemma focus_survives_ticks_witness :
  scene_stack demo_globals = [] ++ [0%nat] /\
  exists g1 t1,
    single_loop_run (V := demo_views) 16
      [Polled (MOUSEBUTTONDOWN 1 (10, 10)) (10, 10)] demo_globals =
      (Val false, g1, t1) /\
    single_loop_run (V := demo_views) 17 [Polled (KEYDOWN 97 "a") (10, 10)]
      g1 =
      (Val false, g1,
       [PitftUpdate; EventGet; MouseGetPos; KeyDown 1 97 "a";
        Update 0 (17 # 1000); Draw 0; Blit 0 (0, 0); DisplayFlip]).
Proof.
  split; [reflexivity|].
  apply (focus_survives_ticks (V := demo_views) demo_globals [] 0%nat 1%nat
           1 (10, 10) (10, 10) (10, 10) 16 17 97 "a"
           eq_refl eq_refl eq_refl eq_refl).
Defined.

Lemma focus_changes_only_on_buttons_witness :
  existsb is_button
    [Polled (MOUSEMOTION (12, 12) (2, 2)) (12, 12); Polled (KEYUP 97) (12, 12);
     Polled QUIT (0, 0)] = false /\
  focus_view
    (final (single_loop_run (V := demo_views) 16
              [Polled (MOUSEMOTION (12, 12) (2, 2)) (12, 12);
               Polled (KEYUP 97) (12, 12); Polled QUIT (0, 0)]
              (with_focus (Some 2%nat) demo_globals))) = Some 2%nat.
Proof.
  split; [reflexivity|].
  apply (focus_changes_only_on_buttons (V := demo_views) 16
           [Polled (MOUSEMOTION (12, 12) (2, 2)) (12, 12);
            Polled (KEYUP 97) (12, 12); Polled QUIT (0, 0)]
           (with_focus (Some 2%nat) demo_globals) eq_refl).
Defined.



Lemma run_after_teardown_witness :
  pitft_bound (without_pitft demo_globals) = false /\
  run (V := demo_views) ([Tick 100 []] ++ Interrupt :: [])
    (without_pitft demo_globals) =
  (Exc NameError, without_pitft demo_globals, [ClockTick; ClockTick]) /\
  run (V := demo_views) ([Tick 100 []] ++ Tick 600 [] :: [])
    (without_pitft demo_globals) =
  (Exc NameError, without_pitft demo_globals, [ClockTick; ClockTick]).
Proof.
  assert (H : clock_ok [Tick 100 []]) by (repeat constructor; cbn; lia).
  assert (H500 : total_dt [Tick 100 []] <= 500) by (cbn; lia).
  split; [reflexivity|]. split.
  - apply (proj1 (run_after_teardown (V := demo_views) [Tick 100 []]
                    (without_pitft demo_globals) eq_refl H eq_refl H500) []).
  - apply (proj2 (run_after_teardown (V := demo_views) [Tick 100 []]
                    (without_pitft demo_globals) eq_refl H eq_refl H500)
             600 [] []).
    + cbn. lia.
    + discriminate.
Defined.

Lemma drag_within_batch_witness :
  scene_stack demo_globals = [] ++ [0%nat] /\
  for_events (V := demo_views)
    [Polled (MOUSEBUTTONDOWN 1 (10, 10)) (10, 10);
     Polled (MOUSEMOTION (12, 12) (2, 2)) (12, 12)] None demo_globals =
  (Val (Exhausted (Some 1%nat)), with_focus (Some 1%nat) demo_globals,
   [MouseGetPos; Hit 0 (10, 10); FocusSet (Some 1%nat);
    FromWindow 1 (10, 10); MouseDown 1 1 (10, 10);
    MouseGetPos; FromWindow 1 (12, 12); MouseDrag 1 (12, 12) (2, 2)]).
Proof.
  split; [reflexivity|].
  apply (drag_within_batch (V := demo_views) demo_globals [] 0%nat 1%nat 1
           (10, 10) (12, 12) (2, 2) (10, 10) (12, 12) None
           eq_refl eq_refl eq_refl eq_refl).
Defined.
